(** * The agent contract of multi_agent_orchestrator/agents/agent.py

    A shallow embedding of the [Agent] base class: key generation from a
    display name, construction from [AgentOptions], the streaming capability
    query and the debug-trace helper, followed by the properties the
    specification states about them. *)

From Stdlib Require Import String Ascii.
From Stdlib Require Import List NArith ZArith Bool Arith Lia.
From Equations Require Import Equations.
Import ListNotations.

Local Open Scope N_scope.
Set Warnings "-register-all".

(** ** Python strings

    A [str] is a sequence of Unicode code points. *)

Definition char := N.
Definition str := list char.

Definition ord (a : ascii) : char := N_of_ascii a.

(** An ASCII literal of the source, as a [str]. *)
Definition lit (s : string) : str := map ord (list_ascii_of_string s).

(** [str.isspace] for one code point, which is what [\s] matches in a [str]
    pattern: the ASCII white space and separators 0x09-0x0D, 0x1C-0x20, and
    the Unicode white space NEL, NBSP, OGHAM SPACE MARK, EN QUAD .. HAIR
    SPACE, LINE and PARAGRAPH SEPARATOR, NARROW NBSP, MEDIUM MATHEMATICAL
    SPACE and IDEOGRAPHIC SPACE. *)
Definition is_space (c : char) : bool :=
  ((0x09 <=? c) && (c <=? 0x0D)) || ((0x1C <=? c) && (c <=? 0x20))
  || (c =? 0x85) || (c =? 0xA0) || (c =? 0x1680)
  || ((0x2000 <=? c) && (c <=? 0x200A))
  || (c =? 0x2028) || (c =? 0x2029) || (c =? 0x202F) || (c =? 0x205F)
  || (c =? 0x3000).

Definition is_ascii (c : char) : bool := c <? 128.

Definition is_ascii_upper (c : char) : bool := (ord "A" <=? c) && (c <=? ord "Z").
Definition is_ascii_lower (c : char) : bool := (ord "a" <=? c) && (c <=? ord "z").
Definition is_ascii_digit (c : char) : bool := (ord "0" <=? c) && (c <=? ord "9").
Definition is_hyphen (c : char) : bool := c =? ord "-".

Definition ascii_lower (c : char) : char :=
  if is_ascii_upper c then c + 32 else c.

(** ** The fragment of Python's [re] that the module uses

    Both patterns of [generate_key_from_name] are a character set, possibly
    negated, possibly repeated with [+]; neither can match the empty
    string. *)

Module re.

Inductive set_item : Type :=
| Range (lo hi : char)
| Literal (c : char)
| Category_space.

Inductive pattern : Type :=
| In_ (negate : bool) (items : list set_item)
| Max_repeat_1 (negate : bool) (items : list set_item).

Definition item_matches (it : set_item) (c : char) : bool :=
  match it with
  | Range lo hi => (lo <=? c) && (c <=? hi)
  | Literal x => c =? x
  | Category_space => is_space c
  end.

Definition set_matches (negate : bool) (items : list set_item) (c : char) : bool :=
  xorb negate (existsb (fun it => item_matches it c) items).

(** The number of leading characters of [s] in the set: what a greedy
    [+] consumes. *)
Fixpoint greedy (negate : bool) (items : list set_item) (s : str) : nat :=
  match s with
  | [] => O
  | c :: t => if set_matches negate items c then S (greedy negate items t) else O
  end.

(** The length of the match of [p] at the start of [s]; [O] when [p] does
    not match there. *)
Definition match_at (p : pattern) (s : str) : nat :=
  match p, s with
  | In_ negate items, c :: _ => if set_matches negate items c then 1%nat else O
  | In_ _ _, [] => O
  | Max_repeat_1 negate items, _ => greedy negate items s
  end.

(** [re.sub(p, repl, s)] for a literal replacement: scan from the left;
    where the pattern matches, emit [repl] and go on after the match;
    elsewhere copy one character. *)
Equations? sub (p : pattern) (repl : str) (s : str) : str by wf (List.length s) lt :=
  sub p repl [] := [];
  sub p repl (c :: t) with match_at p (c :: t) => {
    | S k := repl ++ sub p repl (skipn k t);
    | O := c :: sub p repl t }.
Proof. all: simpl; try rewrite length_skipn; lia. Qed.

End re.

(** ** [str.lower]

    On an all-ASCII string, [str.lower] maps [A-Z] to [a-z] character by
    character.  On any other string it applies the Unicode case mapping,
    which is context dependent and may change the length; that mapping is
    the parameter [unicode_lower]. *)

Definition lower (unicode_lower : str -> str) (s : str) : str :=
  if forallb is_ascii s then map ascii_lower s else unicode_lower s.

(** ** Values, exceptions and the world

    [PyVal] is the part of Python's [Any] that the trace helper is given as
    [data]; [truthy] is [bool(v)]. *)

Inductive PyVal : Type :=
| PyNone
| PyBool (b : bool)
| PyInt (z : Z)
| PyStr (s : str)
| PyList (items : list PyVal)
| PyDict (items : list (PyVal * PyVal)).

Definition truthy (v : PyVal) : bool :=
  match v with
  | PyNone => false
  | PyBool b => b
  | PyInt z => negb (z =? 0)%Z
  | PyStr s => match s with [] => false | _ :: _ => true end
  | PyList items => match items with [] => false | _ :: _ => true end
  | PyDict items => match items with [] => false | _ :: _ => true end
  end.

(** The truth value of an [Optional[bool]]. *)
Definition truthy_flag (f : option bool) : bool :=
  match f with
  | Some b => b
  | None => false
  end.

(** A raised exception: its class and its message. *)
Record exn : Type := Exception { exn_class : string; exn_message : str }.

(** What a run can observe of the process: the messages handed to
    [Logger.info], oldest first, and the number of objects created so far. *)
Record World : Type := mkWorld { logged : list str; objects : nat }.

Inductive outcome (A : Type) : Type :=
| Return (a : A)
| Raise (e : exn).
Arguments Return {A} a.
Arguments Raise {A} e.

Definition M (A : Type) : Type := World -> outcome A * World.

Definition ret {A} (a : A) : M A := fun w => (Return a, w).

Definition bind {A B} (m : M A) (k : A -> M B) : M B :=
  fun w =>
    match m w with
    | (Return a, w') => k a w'
    | (Raise e, w') => (Raise e, w')
    end.

Notation "x <- m ;; k" := (bind m (fun x => k))
  (at level 61, m at next level, right associativity).
Notation "m ;; k" := (bind m (fun _ => k))
  (at level 61, right associativity).

(** ** [Logger]

    [Logger] belongs to [multi_agent_orchestrator.utils] and is a
    collaborator of this module, so its behaviour is a parameter:
    [logger_fails w msg] is the exception [Logger.info(msg)] raises in the
    world [w], if any.  Every call is recorded in the world. *)

Module Logger.

Definition info (logger_fails : World -> str -> option exn) (msg : str) : M unit :=
  fun w =>
    let w' := mkWorld (logged w ++ [msg]) (objects w) in
    match logger_fails w msg with
    | Some e => (Raise e, w')
    | None => (Return tt, w')
    end.

End Logger.

(** ** [AgentCallbacks] *)

Module AgentCallbacks.

(** An instance: its identity and the method a subclass may override. *)
Record t : Type := { ref : nat; on_llm_new_token : str -> M unit }.

(** The method of the base class does nothing. *)
Definition default_on_llm_new_token (token : str) : M unit := ret tt.

(** [AgentCallbacks()]: a new object of the base class. *)
Definition __init__ : M t :=
  fun w =>
    (Return {| ref := objects w; on_llm_new_token := default_on_llm_new_token |},
     mkWorld (logged w) (S (objects w))).

End AgentCallbacks.

(** ** [AgentOptions] *)

Module AgentOptions.

Record t : Type := {
  name : str;
  description : str;
  save_chat : bool;
  callbacks : option AgentCallbacks.t;
  LOG_AGENT_DEBUG_TRACE : option bool
}.

(** The dataclass constructor with its defaults. *)
Definition __init__ (name description : str) : t :=
  {| name := name; description := description; save_chat := true;
     callbacks := None; LOG_AGENT_DEBUG_TRACE := Some false |}.

End AgentOptions.

(** ** [Agent] *)

Module Agent.

Record t : Type := {
  name : str;
  id : str;
  description : str;
  save_chat : bool;
  callbacks : AgentCallbacks.t;
  log_debug_trace : option bool
}.

Definition special_characters : re.pattern :=
  re.In_ true [re.Range (ord "a") (ord "z"); re.Range (ord "A") (ord "Z");
               re.Range (ord "0") (ord "9"); re.Category_space;
               re.Literal (ord "-")].

Definition spaces : re.pattern := re.Max_repeat_1 false [re.Category_space].

Definition newline : str := [10].

Section Methods.

Variable unicode_lower : str -> str.
Variable logger_fails : World -> str -> option exn.
(** [format(v, "")], which an f-string applies to an interpolated value. *)
Variable format : PyVal -> str.

Definition generate_key_from_name (name : str) : str :=
  let key := re.sub special_characters (lit "") name in
  let key := re.sub spaces (lit "-") key in
  lower unicode_lower key.

Definition __init__ (options : AgentOptions.t) : M t :=
  let name := AgentOptions.name options in
  let id := generate_key_from_name (AgentOptions.name options) in
  let description := AgentOptions.description options in
  let save_chat := AgentOptions.save_chat options in
  callbacks <- match AgentOptions.callbacks options with
               | Some c => ret c
               | None => AgentCallbacks.__init__
               end ;;
  let log_debug_trace := AgentOptions.LOG_AGENT_DEBUG_TRACE options in
  ret {| name := name; id := id; description := description;
         save_chat := save_chat; callbacks := callbacks;
         log_debug_trace := log_debug_trace |}.

Definition is_streaming_enabled (self : t) : bool := false.

Definition log_debug (self : t) (class_name message : str) (data : PyVal) : M unit :=
  if truthy_flag (log_debug_trace self) then
    let prefix := lit "> " ++ class_name ++ lit " " ++ newline ++ lit "> "
                  ++ name self ++ lit " " ++ newline ++ lit ">" in
    if truthy data then
      Logger.info logger_fails
        (prefix ++ lit " " ++ message ++ lit " " ++ newline ++ lit "> " ++ format data)
    else
      Logger.info logger_fails
        (prefix ++ lit " " ++ message ++ lit " " ++ newline ++ lit ">")
  else ret tt.

(** Any number of calls of the trace helper, one after the other. *)
Fixpoint log_debug_each (self : t) (calls : list (str * str * PyVal)) : M unit :=
  match calls with
  | [] => ret tt
  | (class_name, message, data) :: rest =>
      log_debug self class_name message data ;; log_debug_each self rest
  end.

End Methods.

(** A concrete agent class says whether it overrides the capability query;
    a call goes to the override when there is one and to the method of
    [Agent] otherwise. *)
Record subclass : Type := { overrides_is_streaming_enabled : option (t -> bool) }.

Definition call_is_streaming_enabled (cls : subclass) (self : t) : bool :=
  match overrides_is_streaming_enabled cls with
  | Some method => method self
  | None => is_streaming_enabled self
  end.

End Agent.

(** ** The normalization rule as the specification words it

    Remove every character that is not an ASCII letter, digit, white space or
    hyphen; collapse every maximal run of white space into a single hyphen;
    lower-case the result. *)

Definition is_ascii_letter (c : char) : bool := is_ascii_lower c || is_ascii_upper c.

Definition permitted (c : char) : bool :=
  is_ascii_letter c || is_ascii_digit c || is_space c || is_hyphen c.

(** The maximal runs of [s], each tagged with whether it is white space. *)
Fixpoint runs (s : str) : list (bool * str) :=
  match s with
  | [] => []
  | c :: t =>
      match runs t with
      | (b, r) :: rest =>
          if Bool.eqb (is_space c) b then (b, c :: r) :: rest
          else (is_space c, [c]) :: (b, r) :: rest
      | [] => [(is_space c, [c])]
      end
  end.

Definition collapse_run (r : bool * str) : str :=
  if fst r then lit "-" else snd r.

Definition collapse_whitespace (s : str) : str := flat_map collapse_run (runs s).

(** Neighbouring runs are of different kinds, so each run is maximal. *)
Fixpoint alternating (l : list (bool * str)) : Prop :=
  match l with
  | (b, _) :: (((b', _) :: _) as t) => b <> b' /\ alternating t
  | _ => True
  end.

Definition normalize_spec (unicode_lower : str -> str) (name : str) : str :=
  lower unicode_lower (collapse_whitespace (filter permitted name)).

(** The characters of a key: [a-z0-9-]. *)
Definition key_char (c : char) : bool :=
  is_ascii_lower c || is_ascii_digit c || is_hyphen c.

(** The characters that pass into a key as they are, up to case:
    [a-zA-Z0-9-]. *)
Definition word_char (c : char) : bool :=
  is_ascii_letter c || is_ascii_digit c || is_hyphen c.

(** ** The trace line as the specification describes it

    A structured line naming the component, the agent's display name and the
    message; the data, when there is any, follows it. *)

Definition trace_prefix (self : Agent.t) (class_name : str) : str :=
  (lit "> " ++ class_name ++ lit " " ++ Agent.newline)
  ++ (lit "> " ++ Agent.name self ++ lit " " ++ Agent.newline)
  ++ lit ">".

Definition line_without_data (self : Agent.t) (class_name message : str) : str :=
  trace_prefix self class_name ++ lit " " ++ message ++ lit " " ++ Agent.newline ++ lit ">".

Definition line_with_data (format : PyVal -> str) (self : Agent.t)
    (class_name message : str) (data : PyVal) : str :=
  line_without_data self class_name message ++ lit " " ++ format data.

(** The line one call of the trace helper hands to the logger. *)
Definition trace_line (format : PyVal -> str) (self : Agent.t)
    (call : str * str * PyVal) : str :=
  let '(class_name, message, data) := call in
  if truthy data then line_with_data format self class_name message data
  else line_without_data self class_name message.

(** ** Sample collaborators and inputs *)

Module Sample.

(** A case mapping that leaves non-ASCII strings alone. *)
Definition no_case_mapping (s : str) : str := s.

(** A logger that never fails, and one that always does. *)
Definition quiet (w : World) (msg : str) : option exn := None.

Definition disk_full : exn := Exception "OSError" (lit "No space left on device").

Definition broken (w : World) (msg : str) : option exn := Some disk_full.

(** [format] on the values that are their own text. *)
Definition format (v : PyVal) : str :=
  match v with
  | PyNone => lit "None"
  | PyBool true => lit "True"
  | PyBool false => lit "False"
  | PyStr s => s
  | _ => lit "..."
  end.

Definition start : World := mkWorld [] 0.

Definition no_op : AgentCallbacks.t :=
  {| AgentCallbacks.ref := 0;
     AgentCallbacks.on_llm_new_token := AgentCallbacks.default_on_llm_new_token |}.

Definition silent : Agent.t :=
  {| Agent.name := lit "Tech Agent"; Agent.id := lit "tech-agent";
     Agent.description := lit "Answers technical questions";
     Agent.save_chat := true; Agent.callbacks := no_op;
     Agent.log_debug_trace := Some false |}.

Definition traced : Agent.t :=
  {| Agent.name := lit "Tech Agent"; Agent.id := lit "tech-agent";
     Agent.description := lit "Answers technical questions";
     Agent.save_chat := true; Agent.callbacks := no_op;
     Agent.log_debug_trace := Some true |}.

(** A concrete agent class that inherits the capability query. *)
Definition plain_class : Agent.subclass :=
  {| Agent.overrides_is_streaming_enabled := None |}.

End Sample.

(* ===================================================================== *)
(** * Properties *)
(* ===================================================================== *)

(** ** Characters *)

Ltac char_arith :=
  unfold ascii_lower, key_char, permitted, is_ascii_letter in *;
  unfold is_ascii_lower, is_ascii_upper, is_ascii_digit, is_hyphen, is_space,
    is_ascii, ord in *;
  simpl N_of_ascii in *;
  repeat match goal with
    | H : _ && _ = true |- _ => apply andb_true_iff in H; destruct H
    | H : _ || _ = true |- _ => apply orb_true_iff in H; destruct H
    | H : _ || _ = false |- _ => apply orb_false_iff in H; destruct H
    | H : _ && _ = false |- _ => apply andb_false_iff in H; destruct H
    | H : (_ <=? _) = true |- _ => apply N.leb_le in H
    | H : (_ <=? _) = false |- _ => apply N.leb_gt in H
    | H : (_ <? _) = true |- _ => apply N.ltb_lt in H
    | H : (_ <? _) = false |- _ => apply N.ltb_ge in H
    | H : (_ =? _) = true |- _ => apply N.eqb_eq in H
    | H : (_ =? _) = false |- _ => apply N.eqb_neq in H
    end;
  repeat match goal with
    | |- context [?a <=? ?b] => destruct (N.leb_spec a b); try lia
    | |- context [?a <? ?b] => destruct (N.ltb_spec a b); try lia
    | |- context [?a =? ?b] => destruct (N.eqb_spec a b); try lia
    end;
  simpl; try reflexivity; try discriminate; try lia.

Lemma key_char_not_space c : key_char c = true -> is_space c = false.
Proof. intros H. char_arith. Qed.

Lemma key_char_permitted c : key_char c = true -> permitted c = true.
Proof. intros H. char_arith. Qed.

Lemma key_char_ascii_lower c : key_char c = true -> ascii_lower c = c.
Proof. intros H. char_arith. Qed.

Lemma permitted_not_space_ascii c :
  permitted c = true -> is_space c = false -> is_ascii c = true.
Proof. intros H H0. char_arith. Qed.

Lemma permitted_not_space_lower c :
  permitted c = true -> is_space c = false -> key_char (ascii_lower c) = true.
Proof.
  intros H H0. unfold ascii_lower.
  destruct (is_ascii_upper c) eqn:E; char_arith.
Qed.

Lemma hyphen_permitted_not_space :
  permitted (ord "-") = true /\ is_space (ord "-") = false.
Proof. split; reflexivity. Qed.

(** ** The two substitutions *)

Lemma sub_cons p repl c t :
  re.sub p repl (c :: t) =
  match re.match_at p (c :: t) with
  | O => c :: re.sub p repl t
  | S k => repl ++ re.sub p repl (skipn k t)
  end.
Proof. simp sub. destruct (re.match_at p (c :: t)); reflexivity. Qed.

Lemma special_characters_spec c :
  re.match_at Agent.special_characters [c] = if permitted c then O else 1%nat.
Proof.
  unfold permitted, is_ascii_letter, is_ascii_lower, is_ascii_upper,
    is_ascii_digit, is_hyphen. simpl.
  repeat match goal with
    | |- context [?a <=? ?b] => destruct (a <=? b)
    | |- context [?a =? ?b] => destruct (a =? b)
    | |- context [is_space ?x] => destruct (is_space x)
    end; reflexivity.
Qed.

Lemma sub_special_characters s :
  re.sub Agent.special_characters (lit "") s = filter permitted s.
Proof.
  induction s as [|c t IH]; [reflexivity|].
  rewrite sub_cons.
  change (re.match_at Agent.special_characters (c :: t))
    with (re.match_at Agent.special_characters [c]).
  rewrite special_characters_spec. simpl filter.
  destruct (permitted c); [rewrite IH; reflexivity | exact IH].
Qed.

Lemma set_space c : re.set_matches false [re.Category_space] c = is_space c.
Proof. unfold re.set_matches. simpl. destruct (is_space c); reflexivity. Qed.

(** ** Maximal runs *)

Lemma runs_head c t : exists r rest, runs (c :: t) = (is_space c, r) :: rest.
Proof.
  simpl. destruct (runs t) as [|[b r] rest]; eauto.
  destruct (Bool.eqb (is_space c) b) eqn:E; eauto.
  apply eqb_prop in E. subst b. eauto.
Qed.

(** The runs, put back together, are the string. *)
Lemma runs_concat s : concat (map snd (runs s)) = s.
Proof.
  induction s as [|c t IH]; [reflexivity|].
  simpl. destruct (runs t) as [|[b r] rest].
  - simpl in *. subst t. reflexivity.
  - destruct (Bool.eqb (is_space c) b); simpl in *; rewrite IH; reflexivity.
Qed.

(** Every run is non-empty and of one kind. *)
Lemma runs_uniform s :
  Forall (fun br => snd br <> [] /\ Forall (fun c => is_space c = fst br) (snd br)) (runs s).
Proof.
  induction s as [|c t IH]; [constructor|].
  simpl. destruct (runs t) as [|[b r] rest].
  - repeat constructor. discriminate.
  - inversion IH as [|? ? [Hne Hr] Hrest]; subst.
    destruct (Bool.eqb (is_space c) b) eqn:E.
    + apply eqb_prop in E. constructor; [|assumption].
      split; [discriminate|]. constructor; assumption.
    + constructor; [|assumption].
      split; [discriminate|]. repeat constructor.
Qed.

(** Neighbouring runs are of different kinds, so each run is maximal. *)
Lemma runs_alternating s : alternating (runs s).
Proof.
  induction s as [|c t IH]; [exact I|].
  simpl. destruct (runs t) as [|[b r] rest]; [exact I|].
  destruct (Bool.eqb (is_space c) b) eqn:E.
  - destruct rest as [|[b' r'] rest']; [exact I|]. exact IH.
  - split; [|exact IH]. apply eqb_false_iff in E. exact E.
Qed.

Lemma collapse_whitespace_cons c t :
  collapse_whitespace (c :: t) =
  if is_space c then
    match t with
    | d :: _ => if is_space d then collapse_whitespace t
                else ord "-" :: collapse_whitespace t
    | [] => [ord "-"]
    end
  else c :: collapse_whitespace t.
Proof.
  unfold collapse_whitespace. destruct t as [|d t'].
  - simpl. unfold collapse_run. simpl. destruct (is_space c); reflexivity.
  - destruct (runs_head d t') as (r & rest & E).
    change (runs (c :: d :: t')) with
      (match runs (d :: t') with
       | (b, r) :: rest =>
           if Bool.eqb (is_space c) b then (b, c :: r) :: rest
           else (is_space c, [c]) :: (b, r) :: rest
       | [] => [(is_space c, [c])]
       end).
    rewrite E. unfold collapse_run.
    destruct (is_space c), (is_space d); reflexivity.
Qed.

Lemma collapse_whitespace_after_space c t :
  is_space c = true ->
  collapse_whitespace (c :: t) =
  ord "-" :: collapse_whitespace (skipn (re.greedy false [re.Category_space] t) t).
Proof.
  revert c. induction t as [|d t' IH]; intros c Hc.
  - rewrite collapse_whitespace_cons, Hc. reflexivity.
  - rewrite collapse_whitespace_cons, Hc. cbn [re.greedy]. rewrite set_space.
    destruct (is_space d) eqn:Hd.
    + rewrite (IH d Hd). reflexivity.
    + reflexivity.
Qed.

(** Substituting a hyphen for [\s+] collapses the maximal runs. *)
Lemma sub_spaces s : re.sub Agent.spaces (lit "-") s = collapse_whitespace s.
Proof.
  remember (List.length s) as n eqn:Hn. revert s Hn.
  induction n as [n IH] using lt_wf_ind. intros [|c t] Hn; [reflexivity|].
  rewrite sub_cons. unfold Agent.spaces. cbn [re.match_at re.greedy]. rewrite set_space.
  destruct (is_space c) eqn:Hc.
  - rewrite collapse_whitespace_after_space by assumption.
    fold Agent.spaces.
    rewrite (IH (List.length (skipn (re.greedy false [re.Category_space] t) t))); try reflexivity.
    subst n. rewrite length_skipn. simpl. lia.
  - rewrite collapse_whitespace_cons, Hc. fold Agent.spaces.
    rewrite (IH (List.length t)); try reflexivity. subst n. simpl. lia.
Qed.

(** ** What the steps leave in the key *)

Lemma collapse_whitespace_chars s :
  Forall (fun c => permitted c = true) s ->
  Forall (fun c => permitted c = true /\ is_space c = false) (collapse_whitespace s).
Proof.
  induction s as [|c t IH]; intros H.
  - constructor.
  - inversion H as [|? ? Hc Ht]; subst. specialize (IH Ht).
    rewrite collapse_whitespace_cons.
    destruct (is_space c) eqn:Ec.
    + destruct t as [|d t'].
      * repeat constructor.
      * destruct (is_space d); [exact IH|].
        constructor; [exact hyphen_permitted_not_space | exact IH].
    + constructor; [split; assumption | exact IH].
Qed.

Lemma collapse_whitespace_no_space s :
  Forall (fun c => is_space c = false) s -> collapse_whitespace s = s.
Proof.
  induction s as [|c t IH]; intros H; [reflexivity|].
  inversion H as [|? ? Hc Ht]; subst.
  rewrite collapse_whitespace_cons, Hc, (IH Ht). reflexivity.
Qed.

Lemma filter_all {A} (f : A -> bool) l :
  Forall (fun x => f x = true) l -> filter f l = l.
Proof.
  induction 1 as [|x l Hx Hl IH]; simpl; [reflexivity|].
  rewrite Hx, IH. reflexivity.
Qed.

Lemma lower_ascii unicode_lower s :
  Forall (fun c => is_ascii c = true) s ->
  lower unicode_lower s = map ascii_lower s.
Proof.
  intros H. unfold lower.
  replace (forallb is_ascii s) with true; [reflexivity|].
  symmetry. apply forallb_forall. apply Forall_forall. exact H.
Qed.

Lemma generate_key_from_name_normalize unicode_lower name :
  Agent.generate_key_from_name unicode_lower name = normalize_spec unicode_lower name.
Proof.
  unfold Agent.generate_key_from_name, normalize_spec.
  rewrite sub_special_characters, sub_spaces. reflexivity.
Qed.

Lemma generate_key_from_name_ascii unicode_lower name :
  Agent.generate_key_from_name unicode_lower name =
  map ascii_lower (collapse_whitespace (filter permitted name)).
Proof.
  rewrite generate_key_from_name_normalize. unfold normalize_spec.
  apply lower_ascii.
  eapply Forall_impl; [|apply collapse_whitespace_chars].
  - intros c [Hp Hs]. exact (permitted_not_space_ascii c Hp Hs).
  - apply Forall_forall. intros c Hc. apply filter_In in Hc. tauto.
Qed.

Lemma generate_key_from_name_key_chars unicode_lower name :
  Forall (fun c => key_char c = true) (Agent.generate_key_from_name unicode_lower name).
Proof.
  rewrite generate_key_from_name_ascii. apply Forall_map.
  eapply Forall_impl; [|apply collapse_whitespace_chars].
  - intros c [Hp Hs]. exact (permitted_not_space_lower c Hp Hs).
  - apply Forall_forall. intros c Hc. apply filter_In in Hc. tauto.
Qed.

Lemma generate_key_from_name_fixes_keys unicode_lower key :
  Forall (fun c => key_char c = true) key ->
  Agent.generate_key_from_name unicode_lower key = key.
Proof.
  intros H. rewrite generate_key_from_name_ascii.
  rewrite filter_all by (eapply Forall_impl; [|exact H]; apply key_char_permitted).
  rewrite collapse_whitespace_no_space
    by (eapply Forall_impl; [|exact H]; apply key_char_not_space).
  induction H as [|c k Hc Hk IH]; simpl; [reflexivity|].
  rewrite (key_char_ascii_lower c Hc), IH. reflexivity.
Qed.

(** ** Key generation *)

(** C1.  [generate_key_from_name] is a total function of the name alone: for
    every name it returns the string obtained by removing every character
    that is not an ASCII letter, digit, white space or hyphen, collapsing
    every maximal run of white space into one hyphen and lower-casing the
    result; that string does not depend on the Unicode case mapping; and the
    empty name gives the empty key. *)
Theorem generate_key_from_name_meets_spec (unicode_lower : str -> str) (name : str) :
  (exists key, Agent.generate_key_from_name unicode_lower name = key
               /\ key = normalize_spec unicode_lower name
               /\ key = map ascii_lower (collapse_whitespace (filter permitted name)))
  /\ Agent.generate_key_from_name unicode_lower (lit "") = lit "".
Proof.
  split; [|reflexivity].
  eexists. split; [reflexivity|]. split.
  - apply generate_key_from_name_normalize.
  - apply generate_key_from_name_ascii.
Qed.

(** C2.  Every key consists of lower-case ASCII letters, digits and hyphens
    only, and generating a key from a key returns it unchanged. *)
Theorem generate_key_from_name_charset_idempotent (unicode_lower : str -> str) (n : str) :
  Forall (fun c => key_char c = true) (Agent.generate_key_from_name unicode_lower n)
  /\ Agent.generate_key_from_name unicode_lower (Agent.generate_key_from_name unicode_lower n)
     = Agent.generate_key_from_name unicode_lower n.
Proof.
  split.
  - apply generate_key_from_name_key_chars.
  - apply generate_key_from_name_fixes_keys, generate_key_from_name_key_chars.
Qed.

(** C8.  The test vectors of the specification: ["Tech Agent!! 2.0"] gives
    ["tech-agent-20"], the empty name gives the empty key, and ["My Agent"]
    and ["my-agent"] both give ["my-agent"]. *)
Theorem generate_key_from_name_vectors (unicode_lower : str -> str) :
  Agent.generate_key_from_name unicode_lower (lit "Tech Agent!! 2.0") = lit "tech-agent-20"
  /\ Agent.generate_key_from_name unicode_lower (lit "") = lit ""
  /\ Agent.generate_key_from_name unicode_lower (lit "My Agent") = lit "my-agent"
  /\ Agent.generate_key_from_name unicode_lower (lit "my-agent") = lit "my-agent".
Proof. repeat split; reflexivity. Qed.

(** ** Construction *)

(** C3.  Construction succeeds for every [AgentOptions] and yields an agent
    whose id is the key generated from the configured name, whose name,
    description, save_chat and debug-trace flag are those of the options,
    and whose callbacks are the configured ones when supplied and otherwise
    a newly created sink whose hook does nothing; nothing is logged, and the
    world changes only by the creation of that sink. *)
Theorem init_establishes_fields (unicode_lower : str -> str)
    (options : AgentOptions.t) (w : World) :
  exists self w',
    Agent.__init__ unicode_lower options w = (Return self, w')
    /\ Agent.id self = Agent.generate_key_from_name unicode_lower (AgentOptions.name options)
    /\ Agent.name self = AgentOptions.name options
    /\ Agent.description self = AgentOptions.description options
    /\ Agent.save_chat self = AgentOptions.save_chat options
    /\ Agent.log_debug_trace self = AgentOptions.LOG_AGENT_DEBUG_TRACE options
    /\ match AgentOptions.callbacks options with
       | Some c => Agent.callbacks self = c /\ w' = w
       | None =>
           AgentCallbacks.ref (Agent.callbacks self) = objects w
           /\ (forall token w0,
                 AgentCallbacks.on_llm_new_token (Agent.callbacks self) token w0
                 = (Return tt, w0))
           /\ objects w' = S (objects w)
       end
    /\ logged w' = logged w.
Proof.
  unfold Agent.__init__, bind.
  destruct (AgentOptions.callbacks options) as [c|]; simpl;
    eexists; eexists; (split; [reflexivity|]); simpl; repeat split; reflexivity.
Qed.

(** C4, as the code has it.  Construction never fails, whatever the
    configured name; with the empty name it returns an agent whose id is the
    empty key. *)
Theorem init_never_fails (unicode_lower : str -> str) :
  (forall options w, exists self w',
      Agent.__init__ unicode_lower options w = (Return self, w'))
  /\ (forall description save_chat callbacks flag w, exists self w',
        Agent.__init__ unicode_lower
          {| AgentOptions.name := lit "";
             AgentOptions.description := description;
             AgentOptions.save_chat := save_chat;
             AgentOptions.callbacks := callbacks;
             AgentOptions.LOG_AGENT_DEBUG_TRACE := flag |} w
        = (Return self, w')
        /\ Agent.name self = lit "" /\ Agent.id self = lit "").
Proof.
  split.
  - intros options w. unfold Agent.__init__, bind.
    destruct (AgentOptions.callbacks options) as [c|]; simpl;
      eexists; eexists; reflexivity.
  - intros description save_chat callbacks flag w.
    unfold Agent.__init__, bind.
    destruct callbacks as [c|]; simpl; eexists; eexists;
      (split; [reflexivity|]); split; reflexivity.
Qed.

(** C4, the configured name being empty: construction returns an agent with
    the empty id and raises nothing. *)
Lemma init_empty_name_succeeds :
  Agent.__init__ Sample.no_case_mapping
    (AgentOptions.__init__ (lit "") (lit "Answers technical questions")) Sample.start
  = (Return {| Agent.name := lit ""; Agent.id := lit "";
               Agent.description := lit "Answers technical questions";
               Agent.save_chat := true; Agent.callbacks := Sample.no_op;
               Agent.log_debug_trace := Some false |},
     mkWorld [] 1).
Proof. reflexivity. Qed.

(** C10.  The name ["!!!"] is not empty and generates the empty key, as does
    the name made of the letters U+00E9, U+65E5 and U+672C; construction
    with the name ["!!!"] succeeds and yields an agent whose id is the empty
    string. *)
Theorem empty_key_from_nonempty_name (unicode_lower : str -> str)
    (description : str) (save_chat : bool) (callbacks : option AgentCallbacks.t)
    (flag : option bool) (w : World) :
  lit "!!!" <> lit ""
  /\ Agent.generate_key_from_name unicode_lower (lit "!!!") = lit ""
  /\ Agent.generate_key_from_name unicode_lower [233; 26085; 26412] = lit ""
  /\ exists self w',
       Agent.__init__ unicode_lower
         {| AgentOptions.name := lit "!!!";
            AgentOptions.description := description;
            AgentOptions.save_chat := save_chat;
            AgentOptions.callbacks := callbacks;
            AgentOptions.LOG_AGENT_DEBUG_TRACE := flag |} w
       = (Return self, w')
       /\ Agent.name self = lit "!!!" /\ Agent.id self = lit "".
Proof.
  split; [discriminate|]. split; [reflexivity|]. split; [reflexivity|].
  unfold Agent.__init__, bind.
  destruct callbacks as [c|]; simpl; eexists; eexists;
    (split; [reflexivity|]); split; reflexivity.
Qed.

(** ** The capability query *)

(** C7.  An agent class that does not override [is_streaming_enabled]
    answers [False]. *)
Theorem is_streaming_enabled_default (cls : Agent.subclass) (self : Agent.t) :
  Agent.overrides_is_streaming_enabled cls = None ->
  Agent.call_is_streaming_enabled cls self = false.
Proof.
  intros H. unfold Agent.call_is_streaming_enabled. rewrite H. reflexivity.
Qed.

Lemma is_streaming_enabled_default_witness :
  Agent.overrides_is_streaming_enabled Sample.plain_class = None
  /\ Agent.call_is_streaming_enabled Sample.plain_class Sample.silent = false.
Proof.
  split; [reflexivity|].
  apply (is_streaming_enabled_default Sample.plain_class Sample.silent). reflexivity.
Defined.

(** ** The trace helper *)

Lemma log_debug_enabled logger_fails format self class_name message data :
  truthy_flag (Agent.log_debug_trace self) = true ->
  Agent.log_debug logger_fails format self class_name message data =
  Logger.info logger_fails
    (if truthy data then line_with_data format self class_name message data
     else line_without_data self class_name message).
Proof.
  intros H. unfold Agent.log_debug. rewrite H.
  unfold line_with_data, line_without_data, trace_prefix.
  destruct (truthy data); f_equal; repeat rewrite <- app_assoc; reflexivity.
Qed.

Lemma log_debug_disabled logger_fails format self class_name message data :
  truthy_flag (Agent.log_debug_trace self) = false ->
  Agent.log_debug logger_fails format self class_name message data = ret tt.
Proof. intros H. unfold Agent.log_debug. rewrite H. reflexivity. Qed.

Lemma log_debug_each_disabled logger_fails format self calls w :
  truthy_flag (Agent.log_debug_trace self) = false ->
  Agent.log_debug_each logger_fails format self calls w = (Return tt, w).
Proof.
  intros H. induction calls as [|[[class_name message] data] rest IH].
  - reflexivity.
  - simpl. rewrite log_debug_disabled by assumption.
    unfold bind, ret. exact IH.
Qed.

(** C5, as the code has it.  With debug tracing enabled the helper has no
    handler of its own: it raises what [Logger.info] raises on the trace
    line, and returns when [Logger.info] returns. *)
Theorem log_debug_propagates_logger_failure
    (logger_fails : World -> str -> option exn) (format : PyVal -> str)
    (self : Agent.t) (class_name message : str) (data : PyVal) (w : World) :
  truthy_flag (Agent.log_debug_trace self) = true ->
  fst (Agent.log_debug logger_fails format self class_name message data w) =
  match logger_fails w (if truthy data
                        then line_with_data format self class_name message data
                        else line_without_data self class_name message) with
  | Some e => Raise e
  | None => Return tt
  end.
Proof.
  intros H. rewrite log_debug_enabled by assumption.
  unfold Logger.info. destruct (logger_fails w _); reflexivity.
Qed.

Lemma log_debug_propagates_logger_failure_witness :
  truthy_flag (Agent.log_debug_trace Sample.traced) = true
  /\ fst (Agent.log_debug Sample.broken Sample.format Sample.traced
            (lit "Classifier") (lit "routing") (PyStr (lit "billing")) Sample.start)
     = Raise Sample.disk_full.
Proof.
  split; [reflexivity|].
  apply (log_debug_propagates_logger_failure Sample.broken Sample.format Sample.traced
           (lit "Classifier") (lit "routing") (PyStr (lit "billing")) Sample.start).
  reflexivity.
Defined.

(** C5, the logger failing: an agent with debug tracing enabled hands the
    line to [Logger.info], which raises, and the helper raises the same
    exception to its caller. *)
Lemma log_debug_raises_when_logger_raises :
  Agent.log_debug Sample.broken Sample.format Sample.traced
    (lit "Classifier") (lit "routing") PyNone Sample.start
  = (Raise Sample.disk_full,
     mkWorld [lit "> Classifier " ++ [10] ++ lit "> Tech Agent " ++ [10]
              ++ lit "> routing " ++ [10] ++ lit ">"] 0).
Proof. reflexivity. Qed.

(** C6.  For an agent constructed from options whose debug-trace flag is
    false (as it is by default), any sequence of calls of the trace helper,
    with any arguments and from any world, returns without a call of
    [Logger.info]: the record of logged messages is left as it was. *)
Theorem log_debug_disabled_never_logs
    (unicode_lower : str -> str) (logger_fails : World -> str -> option exn)
    (format : PyVal -> str) (options : AgentOptions.t)
    (calls : list (str * str * PyVal)) (w : World) :
  truthy_flag (AgentOptions.LOG_AGENT_DEBUG_TRACE options) = false ->
  exists self w',
    Agent.__init__ unicode_lower options w = (Return self, w')
    /\ logged w' = logged w
    /\ forall w0,
         Agent.log_debug_each logger_fails format self calls w0 = (Return tt, w0)
         /\ logged (snd (Agent.log_debug_each logger_fails format self calls w0))
            = logged w0.
Proof.
  intros H. unfold Agent.__init__, bind.
  destruct (AgentOptions.callbacks options) as [c|]; simpl;
    eexists; eexists; (split; [reflexivity|]); (split; [reflexivity|]);
    intros w0; rewrite log_debug_each_disabled by exact H; split; reflexivity.
Qed.

Lemma log_debug_disabled_never_logs_witness :
  truthy_flag (AgentOptions.LOG_AGENT_DEBUG_TRACE
                 (AgentOptions.__init__ (lit "Tech Agent") (lit "Answers"))) = false
  /\ exists self w',
       Agent.__init__ Sample.no_case_mapping
         (AgentOptions.__init__ (lit "Tech Agent") (lit "Answers")) Sample.start
       = (Return self, w')
       /\ logged w' = logged Sample.start
       /\ forall w0,
            Agent.log_debug_each Sample.broken Sample.format self
              [(lit "Classifier", lit "routing", PyStr (lit "billing"));
               (lit "Classifier", lit "done", PyNone)] w0 = (Return tt, w0)
            /\ logged (snd (Agent.log_debug_each Sample.broken Sample.format self
                 [(lit "Classifier", lit "routing", PyStr (lit "billing"));
                  (lit "Classifier", lit "done", PyNone)] w0))
               = logged w0.
Proof.
  split; [reflexivity|].
  apply (log_debug_disabled_never_logs Sample.no_case_mapping Sample.broken Sample.format
           (AgentOptions.__init__ (lit "Tech Agent") (lit "Answers"))
           [(lit "Classifier", lit "routing", PyStr (lit "billing"));
            (lit "Classifier", lit "done", PyNone)] Sample.start).
  reflexivity.
Defined.

(** C9.  With debug tracing enabled the helper hands [Logger.info] exactly
    one line, chosen by the truth value of the data: a false value gives the
    line without a data section, a true value the line that ends in the
    formatted data, and the two lines differ.  [None], the empty string, [0]
    and the empty mapping are false. *)
Theorem log_debug_line_by_truthiness
    (logger_fails : World -> str -> option exn) (format : PyVal -> str)
    (self : Agent.t) (class_name message : str) (data : PyVal) (w : World) :
  truthy_flag (Agent.log_debug_trace self) = true ->
  logged (snd (Agent.log_debug logger_fails format self class_name message data w))
  = logged w ++ [if truthy data
                 then line_with_data format self class_name message data
                 else line_without_data self class_name message]
  /\ line_with_data format self class_name message data
     <> line_without_data self class_name message
  /\ truthy PyNone = false /\ truthy (PyStr (lit "")) = false
  /\ truthy (PyInt 0) = false /\ truthy (PyDict []) = false.
Proof.
  intros H. split; [|split; [|repeat split]].
  - rewrite log_debug_enabled by assumption.
    unfold Logger.info. destruct (logger_fails w _); reflexivity.
  - unfold line_with_data. intros E.
    rewrite <- (app_nil_r (line_without_data self class_name message)) in E at 2.
    apply app_inv_head in E. discriminate E.
Qed.

Lemma log_debug_line_by_truthiness_witness :
  truthy_flag (Agent.log_debug_trace Sample.traced) = true
  /\ logged (snd (Agent.log_debug Sample.quiet Sample.format Sample.traced
                    (lit "Classifier") (lit "routing") (PyInt 0) Sample.start))
     = [line_without_data Sample.traced (lit "Classifier") (lit "routing")].
Proof.
  split; [reflexivity|].
  apply (log_debug_line_by_truthiness Sample.quiet Sample.format Sample.traced
           (lit "Classifier") (lit "routing") (PyInt 0) Sample.start).
  reflexivity.
Defined.

(* ===================================================================== *)
(** * Further properties of the code *)
(* ===================================================================== *)

(** ** Lower-casing commutes with the two earlier steps *)

Lemma permitted_ascii_lower c : permitted (ascii_lower c) = permitted c.
Proof.
  unfold ascii_lower. destruct (is_ascii_upper c) eqn:E; [|reflexivity].
  char_arith.
Qed.

Lemma is_space_ascii_lower c : is_space (ascii_lower c) = is_space c.
Proof.
  unfold ascii_lower. destruct (is_ascii_upper c) eqn:E; [|reflexivity].
  char_arith.
Qed.

Lemma ascii_lower_idempotent c : ascii_lower (ascii_lower c) = ascii_lower c.
Proof.
  unfold ascii_lower at 2. destruct (is_ascii_upper c) eqn:E.
  - char_arith.
  - unfold ascii_lower. rewrite E. reflexivity.
Qed.

Lemma filter_permitted_lower s :
  filter permitted (map ascii_lower s) = map ascii_lower (filter permitted s).
Proof.
  induction s as [|c t IH]; [reflexivity|].
  simpl. rewrite permitted_ascii_lower.
  destruct (permitted c); simpl; rewrite IH; reflexivity.
Qed.

Lemma collapse_whitespace_lower s :
  collapse_whitespace (map ascii_lower s) = map ascii_lower (collapse_whitespace s).
Proof.
  induction s as [|c t IH]; [reflexivity|].
  simpl map. rewrite !collapse_whitespace_cons, is_space_ascii_lower.
  destruct (is_space c).
  - destruct t as [|d t']; [reflexivity|].
    simpl map in *. cbv beta iota. rewrite is_space_ascii_lower.
    destruct (is_space d); simpl; rewrite IH; reflexivity.
  - simpl. rewrite IH. reflexivity.
Qed.

Lemma generate_key_from_name_lower unicode_lower name :
  Agent.generate_key_from_name unicode_lower (map ascii_lower name)
  = Agent.generate_key_from_name unicode_lower name.
Proof.
  rewrite !generate_key_from_name_ascii.
  rewrite filter_permitted_lower, collapse_whitespace_lower, map_map.
  apply map_ext. intros c. apply ascii_lower_idempotent.
Qed.

(** ** Collapsing, piece by piece *)

Lemma collapse_whitespace_length s :
  (List.length (collapse_whitespace s) <= List.length s)%nat.
Proof.
  induction s as [|c t IH]; [simpl; lia|].
  rewrite collapse_whitespace_cons.
  destruct (is_space c); [destruct t as [|d t']; [simpl; lia|]; destruct (is_space d)|];
    simpl in *; lia.
Qed.

Lemma collapse_whitespace_nil s : collapse_whitespace s = [] -> s = [].
Proof.
  induction s as [|c t IH]; [reflexivity|].
  rewrite collapse_whitespace_cons.
  destruct (is_space c); [|discriminate].
  destruct t as [|d t']; [discriminate|].
  destruct (is_space d); [|discriminate].
  intros H. apply IH in H. discriminate H.
Qed.

(** A character that is not white space separates what is collapsed. *)
Lemma collapse_whitespace_split x c y :
  is_space c = false ->
  collapse_whitespace (x ++ c :: y) = collapse_whitespace x ++ collapse_whitespace (c :: y).
Proof.
  intros Hc. induction x as [|h x' IH]; [reflexivity|].
  simpl app. rewrite (collapse_whitespace_cons h (x' ++ c :: y)), (collapse_whitespace_cons h x').
  destruct (is_space h).
  - destruct x' as [|d x'']; simpl app in *; cbv beta iota.
    + rewrite Hc. reflexivity.
    + destruct (is_space d); rewrite IH; reflexivity.
  - rewrite IH. reflexivity.
Qed.

(** Of two neighbouring white-space characters the first is redundant. *)
Lemma collapse_whitespace_double x c d y :
  is_space c = true -> is_space d = true ->
  collapse_whitespace (x ++ c :: d :: y) = collapse_whitespace (x ++ d :: y).
Proof.
  intros Hc Hd. induction x as [|h x' IH].
  - simpl app. rewrite (collapse_whitespace_cons c), Hc, Hd. reflexivity.
  - simpl app.
    rewrite (collapse_whitespace_cons h (x' ++ c :: d :: y)),
      (collapse_whitespace_cons h (x' ++ d :: y)).
    destruct x' as [|e x'']; simpl app in *; cbv beta iota.
    + rewrite Hc, Hd, IH. reflexivity.
    + rewrite IH. reflexivity.
Qed.

(** Which white-space character stands in a place does not matter. *)
Lemma collapse_whitespace_any_space x c d y :
  is_space c = true -> is_space d = true ->
  collapse_whitespace (x ++ c :: y) = collapse_whitespace (x ++ d :: y).
Proof.
  intros Hc Hd. induction x as [|h x' IH].
  - simpl app. rewrite !collapse_whitespace_cons, Hc, Hd. reflexivity.
  - simpl app.
    rewrite (collapse_whitespace_cons h (x' ++ c :: y)),
      (collapse_whitespace_cons h (x' ++ d :: y)).
    destruct x' as [|e x'']; simpl app in *; cbv beta iota.
    + rewrite Hc, Hd, IH. reflexivity.
    + rewrite IH. reflexivity.
Qed.

Lemma collapse_whitespace_trailing x c :
  is_space c = true ->
  exists k, collapse_whitespace (x ++ [c]) = k ++ [ord "-"].
Proof.
  intros Hc. induction x as [|h x' IH].
  - exists []. simpl app. rewrite collapse_whitespace_cons, Hc. reflexivity.
  - destruct IH as [k IH]. simpl app. rewrite collapse_whitespace_cons.
    destruct (is_space h).
    + destruct x' as [|e x'']; simpl app in *; cbv beta iota.
      * rewrite Hc. exists k. exact IH.
      * destruct (is_space e); rewrite IH; [exists k | exists (ord "-" :: k)]; reflexivity.
    + rewrite IH. exists (h :: k). reflexivity.
Qed.

Lemma filter_none {A} (f : A -> bool) l :
  Forall (fun x => f x = false) l <-> filter f l = [].
Proof.
  induction l as [|x l IH]; simpl.
  - split; [reflexivity | constructor].
  - destruct (f x) eqn:E; split; intros H.
    + inversion H; congruence.
    + discriminate H.
    + inversion H; subst. apply IH. assumption.
    + constructor; [assumption | apply IH; assumption].
Qed.

(** ** Keys *)

(** X1.  A key is never longer than the name it is generated from. *)
Theorem generate_key_from_name_length (unicode_lower : str -> str) (name : str) :
  (List.length (Agent.generate_key_from_name unicode_lower name) <= List.length name)%nat.
Proof.
  rewrite generate_key_from_name_ascii, length_map.
  etransitivity; [apply collapse_whitespace_length | apply filter_length_le].
Qed.

(** X2.  Names that differ only in the case of their ASCII letters generate
    the same key. *)
Theorem generate_key_from_name_ignores_case (unicode_lower : str -> str) (n1 n2 : str) :
  map ascii_lower n1 = map ascii_lower n2 ->
  Agent.generate_key_from_name unicode_lower n1
  = Agent.generate_key_from_name unicode_lower n2.
Proof.
  intros H.
  rewrite <- (generate_key_from_name_lower unicode_lower n1),
    <- (generate_key_from_name_lower unicode_lower n2), H.
  reflexivity.
Qed.

Lemma generate_key_from_name_ignores_case_witness :
  map ascii_lower (lit "Tech AGENT") = map ascii_lower (lit "tEcH agent")
  /\ Agent.generate_key_from_name Sample.no_case_mapping (lit "Tech AGENT")
     = Agent.generate_key_from_name Sample.no_case_mapping (lit "tEcH agent").
Proof.
  split; [reflexivity|].
  apply (generate_key_from_name_ignores_case Sample.no_case_mapping
           (lit "Tech AGENT") (lit "tEcH agent")).
  reflexivity.
Defined.

(** X3.  Characters other than ASCII letters, digits, white space and the
    hyphen leave no trace: inserting any run of them anywhere in a name does
    not change the key. *)
Theorem generate_key_from_name_ignores_special (unicode_lower : str -> str)
    (a x b : str) :
  Forall (fun c => permitted c = false) x ->
  Agent.generate_key_from_name unicode_lower (a ++ x ++ b)
  = Agent.generate_key_from_name unicode_lower (a ++ b).
Proof.
  intros H. rewrite !generate_key_from_name_ascii, !filter_app.
  apply filter_none in H. rewrite H. reflexivity.
Qed.

Lemma generate_key_from_name_ignores_special_witness :
  Forall (fun c => permitted c = false) (lit "!?" ++ [233])
  /\ Agent.generate_key_from_name Sample.no_case_mapping
       (lit "Tech" ++ (lit "!?" ++ [233]) ++ lit " Agent")
     = Agent.generate_key_from_name Sample.no_case_mapping (lit "Tech" ++ lit " Agent").
Proof.
  split; [repeat constructor|].
  apply (generate_key_from_name_ignores_special Sample.no_case_mapping
           (lit "Tech") (lit "!?" ++ [233]) (lit " Agent")).
  repeat constructor.
Defined.

(** X4.  The key is empty exactly when the name has no ASCII letter, digit,
    white space or hyphen at all. *)
Theorem generate_key_from_name_empty_iff (unicode_lower : str -> str) (name : str) :
  Agent.generate_key_from_name unicode_lower name = lit ""
  <-> Forall (fun c => permitted c = false) name.
Proof.
  rewrite generate_key_from_name_ascii, filter_none. split; intros H.
  - apply map_eq_nil in H. apply collapse_whitespace_nil in H. exact H.
  - rewrite H. reflexivity.
Qed.

(** X5.  White space at the ends of a name is not trimmed: a name that
    starts with a white-space character gives a key that starts with a
    hyphen, and a name that ends with one gives a key that ends with a
    hyphen. *)
Theorem generate_key_from_name_keeps_outer_space (unicode_lower : str -> str)
    (c : char) (t : str) :
  is_space c = true ->
  (exists k, Agent.generate_key_from_name unicode_lower (c :: t) = ord "-" :: k)
  /\ (exists k, Agent.generate_key_from_name unicode_lower (t ++ [c]) = k ++ [ord "-"]).
Proof.
  intros Hc.
  assert (Hp : permitted c = true).
  { unfold permitted. rewrite Hc. apply orb_true_iff. left. apply orb_true_r. }
  split.
  - rewrite generate_key_from_name_ascii. simpl filter. rewrite Hp.
    rewrite collapse_whitespace_after_space by exact Hc.
    eexists. reflexivity.
  - rewrite generate_key_from_name_ascii, filter_app. simpl filter. rewrite Hp.
    destruct (collapse_whitespace_trailing (filter permitted t) c Hc) as [k Hk].
    rewrite Hk, map_app. eexists. reflexivity.
Qed.

Lemma generate_key_from_name_keeps_outer_space_witness :
  is_space 32 = true
  /\ (exists k, Agent.generate_key_from_name Sample.no_case_mapping (32 :: lit "Tech")
                = ord "-" :: k)
  /\ (exists k, Agent.generate_key_from_name Sample.no_case_mapping (lit "Tech" ++ [32])
                = k ++ [ord "-"]).
Proof.
  split; [reflexivity|].
  apply (generate_key_from_name_keeps_outer_space Sample.no_case_mapping 32 (lit "Tech")).
  reflexivity.
Defined.

(** X6.  Only the presence of white space counts, not its amount or kind:
    doubling a white-space character, or replacing it by another one, does
    not change the key. *)
Theorem generate_key_from_name_any_space (unicode_lower : str -> str)
    (a b : str) (c d : char) :
  is_space c = true -> is_space d = true ->
  Agent.generate_key_from_name unicode_lower (a ++ c :: d :: b)
  = Agent.generate_key_from_name unicode_lower (a ++ d :: b)
  /\ Agent.generate_key_from_name unicode_lower (a ++ c :: b)
     = Agent.generate_key_from_name unicode_lower (a ++ d :: b).
Proof.
  intros Hc Hd.
  assert (Hpc : permitted c = true).
  { unfold permitted. rewrite Hc. apply orb_true_iff. left. apply orb_true_r. }
  assert (Hpd : permitted d = true).
  { unfold permitted. rewrite Hd. apply orb_true_iff. left. apply orb_true_r. }
  rewrite !generate_key_from_name_ascii, !filter_app. simpl filter.
  rewrite Hpc, Hpd. split; f_equal.
  - apply collapse_whitespace_double; assumption.
  - apply collapse_whitespace_any_space; assumption.
Qed.

Lemma generate_key_from_name_any_space_witness :
  is_space 9 = true /\ is_space 32 = true
  /\ Agent.generate_key_from_name Sample.no_case_mapping (lit "Tech" ++ 9 :: 32 :: lit "Agent")
     = Agent.generate_key_from_name Sample.no_case_mapping (lit "Tech" ++ 32 :: lit "Agent")
  /\ Agent.generate_key_from_name Sample.no_case_mapping (lit "Tech" ++ 9 :: lit "Agent")
     = Agent.generate_key_from_name Sample.no_case_mapping (lit "Tech" ++ 32 :: lit "Agent").
Proof.
  split; [reflexivity|]. split; [reflexivity|].
  apply (generate_key_from_name_any_space Sample.no_case_mapping
           (lit "Tech") (lit "Agent") 9 32); reflexivity.
Defined.

(** X7.  The key of a name splits at any ASCII letter, digit or hyphen: what
    comes before that character and what starts with it are keyed
    independently and the two keys are joined. *)
Theorem generate_key_from_name_splits (unicode_lower : str -> str)
    (a b : str) (c : char) :
  permitted c = true -> is_space c = false ->
  Agent.generate_key_from_name unicode_lower (a ++ c :: b)
  = Agent.generate_key_from_name unicode_lower a
    ++ Agent.generate_key_from_name unicode_lower (c :: b).
Proof.
  intros Hp Hc.
  rewrite !generate_key_from_name_ascii, filter_app. simpl filter. rewrite Hp.
  rewrite collapse_whitespace_split by exact Hc. apply map_app.
Qed.

Lemma generate_key_from_name_splits_witness :
  permitted (ord "A") = true /\ is_space (ord "A") = false
  /\ Agent.generate_key_from_name Sample.no_case_mapping (lit "Tech " ++ ord "A" :: lit "gent")
     = Agent.generate_key_from_name Sample.no_case_mapping (lit "Tech ")
       ++ Agent.generate_key_from_name Sample.no_case_mapping (ord "A" :: lit "gent").
Proof.
  split; [reflexivity|]. split; [reflexivity|].
  apply (generate_key_from_name_splits Sample.no_case_mapping
           (lit "Tech ") (lit "gent") (ord "A")); reflexivity.
Defined.

(** ** Construction and tracing together *)

Lemma init_returns unicode_lower options w :
  exists self w',
    Agent.__init__ unicode_lower options w = (Return self, w')
    /\ Agent.name self = AgentOptions.name options
    /\ Agent.id self = Agent.generate_key_from_name unicode_lower (AgentOptions.name options)
    /\ Agent.log_debug_trace self = AgentOptions.LOG_AGENT_DEBUG_TRACE options
    /\ logged w' = logged w.
Proof.
  unfold Agent.__init__, bind.
  destruct (AgentOptions.callbacks options) as [c|]; simpl;
    eexists; eexists; repeat split; reflexivity.
Qed.

(** X8.  With debug tracing enabled and a logger that does not fail, a
    sequence of calls of the trace helper returns and hands the logger
    exactly one line per call, in the order of the calls; no object is
    created. *)
Theorem log_debug_each_logs_in_order
    (logger_fails : World -> str -> option exn) (format : PyVal -> str)
    (self : Agent.t) (calls : list (str * str * PyVal)) (w : World) :
  truthy_flag (Agent.log_debug_trace self) = true ->
  (forall w0 msg, logger_fails w0 msg = None) ->
  Agent.log_debug_each logger_fails format self calls w
  = (Return tt, mkWorld (logged w ++ map (trace_line format self) calls) (objects w)).
Proof.
  intros Hflag Hquiet. revert w.
  induction calls as [|[[class_name message] data] rest IH]; intros w.
  - simpl. rewrite app_nil_r. destruct w. reflexivity.
  - simpl Agent.log_debug_each. rewrite log_debug_enabled by exact Hflag.
    unfold bind, Logger.info. rewrite Hquiet, IH. simpl.
    rewrite <- app_assoc. reflexivity.
Qed.

Lemma log_debug_each_logs_in_order_witness :
  truthy_flag (Agent.log_debug_trace Sample.traced) = true
  /\ (forall w0 msg, Sample.quiet w0 msg = None)
  /\ Agent.log_debug_each Sample.quiet Sample.format Sample.traced
       [(lit "Classifier", lit "routing", PyStr (lit "billing"));
        (lit "Classifier", lit "done", PyNone)] Sample.start
     = (Return tt,
        mkWorld [lit "> Classifier " ++ [10] ++ lit "> Tech Agent " ++ [10]
                   ++ lit "> routing " ++ [10] ++ lit "> billing";
                 lit "> Classifier " ++ [10] ++ lit "> Tech Agent " ++ [10]
                   ++ lit "> done " ++ [10] ++ lit ">"] 0).
Proof.
  split; [reflexivity|]. split; [reflexivity|].
  apply (log_debug_each_logs_in_order Sample.quiet Sample.format Sample.traced
           [(lit "Classifier", lit "routing", PyStr (lit "billing"));
            (lit "Classifier", lit "done", PyNone)] Sample.start);
    reflexivity.
Defined.

(** X9.  Two agents constructed one after the other without configured
    callbacks do not share a sink: each gets an [AgentCallbacks] object of
    its own. *)
Theorem init_default_callbacks_distinct (unicode_lower : str -> str)
    (options1 options2 : AgentOptions.t) (w : World) :
  AgentOptions.callbacks options1 = None ->
  AgentOptions.callbacks options2 = None ->
  exists a1 w1 a2 w2,
    Agent.__init__ unicode_lower options1 w = (Return a1, w1)
    /\ Agent.__init__ unicode_lower options2 w1 = (Return a2, w2)
    /\ AgentCallbacks.ref (Agent.callbacks a1) <> AgentCallbacks.ref (Agent.callbacks a2).
Proof.
  intros H1 H2. unfold Agent.__init__, bind. rewrite H1, H2. simpl.
  do 4 eexists. split; [reflexivity|]. split; [reflexivity|]. simpl. lia.
Qed.

Lemma init_default_callbacks_distinct_witness :
  AgentOptions.callbacks (AgentOptions.__init__ (lit "Tech Agent") (lit "Answers")) = None
  /\ AgentOptions.callbacks (AgentOptions.__init__ (lit "Travel Agent") (lit "Books")) = None
  /\ exists a1 w1 a2 w2,
       Agent.__init__ Sample.no_case_mapping
         (AgentOptions.__init__ (lit "Tech Agent") (lit "Answers")) Sample.start
       = (Return a1, w1)
       /\ Agent.__init__ Sample.no_case_mapping
            (AgentOptions.__init__ (lit "Travel Agent") (lit "Books")) w1
          = (Return a2, w2)
       /\ AgentCallbacks.ref (Agent.callbacks a1) <> AgentCallbacks.ref (Agent.callbacks a2).
Proof.
  split; [reflexivity|]. split; [reflexivity|].
  apply (init_default_callbacks_distinct Sample.no_case_mapping
           (AgentOptions.__init__ (lit "Tech Agent") (lit "Answers"))
           (AgentOptions.__init__ (lit "Travel Agent") (lit "Books")) Sample.start);
    reflexivity.
Defined.

(** X10.  An agent constructed with debug tracing enabled traces under its
    display name as configured, not under its id: the first line it hands
    the logger is made of the component name, the configured name and the
    message, followed by the formatted data when the data is true. *)
Theorem init_then_log_debug_uses_display_name
    (unicode_lower : str -> str) (logger_fails : World -> str -> option exn)
    (format : PyVal -> str) (options : AgentOptions.t)
    (class_name message : str) (data : PyVal) (w : World) :
  truthy_flag (AgentOptions.LOG_AGENT_DEBUG_TRACE options) = true ->
  exists self w',
    Agent.__init__ unicode_lower options w = (Return self, w')
    /\ logged (snd (Agent.log_debug logger_fails format self class_name message data w'))
       = logged w
         ++ [(lit "> " ++ class_name ++ lit " " ++ [10]
              ++ lit "> " ++ AgentOptions.name options ++ lit " " ++ [10]
              ++ lit "> " ++ message ++ lit " " ++ [10] ++ lit ">")
             ++ (if truthy data then lit " " ++ format data else [])].
Proof.
  intros H.
  destruct (init_returns unicode_lower options w) as (self & w' & E & Hn & _ & Hf & Hl).
  exists self, w'. split; [exact E|].
  rewrite log_debug_enabled by (rewrite Hf; exact H).
  unfold Logger.info. rewrite <- Hl.
  assert (L : forall x y : str, x = y -> logged w' ++ [x] = logged w' ++ [y])
    by (intros; subst; reflexivity).
  destruct (logger_fails w' _); simpl; apply L;
    unfold line_with_data, line_without_data, trace_prefix, Agent.newline;
    rewrite Hn; destruct (truthy data);
    simpl; repeat (rewrite <- app_assoc; simpl); rewrite ?app_nil_r; reflexivity.
Qed.

Lemma init_then_log_debug_uses_display_name_witness :
  truthy_flag (AgentOptions.LOG_AGENT_DEBUG_TRACE
                 {| AgentOptions.name := lit "Tech Agent!";
                    AgentOptions.description := lit "Answers";
                    AgentOptions.save_chat := true;
                    AgentOptions.callbacks := None;
                    AgentOptions.LOG_AGENT_DEBUG_TRACE := Some true |}) = true
  /\ exists self w',
       Agent.__init__ Sample.no_case_mapping
         {| AgentOptions.name := lit "Tech Agent!";
            AgentOptions.description := lit "Answers";
            AgentOptions.save_chat := true;
            AgentOptions.callbacks := None;
            AgentOptions.LOG_AGENT_DEBUG_TRACE := Some true |} Sample.start
       = (Return self, w')
       /\ logged (snd (Agent.log_debug Sample.quiet Sample.format self
                         (lit "Classifier") (lit "routing") PyNone w'))
          = [lit "> Classifier " ++ [10] ++ lit "> Tech Agent! " ++ [10]
             ++ lit "> routing " ++ [10] ++ lit ">"].
Proof.
  split; [reflexivity|].
  apply (init_then_log_debug_uses_display_name Sample.no_case_mapping Sample.quiet
           Sample.format
           {| AgentOptions.name := lit "Tech Agent!";
              AgentOptions.description := lit "Answers";
              AgentOptions.save_chat := true;
              AgentOptions.callbacks := None;
              AgentOptions.LOG_AGENT_DEBUG_TRACE := Some true |}
           (lit "Classifier") (lit "routing") PyNone Sample.start).
  reflexivity.
Defined.

(** X11.  A configured name that is already a key, made of lower-case ASCII
    letters, digits and hyphens only, is the id of the agent unchanged. *)
Theorem init_id_of_key_name (unicode_lower : str -> str)
    (options : AgentOptions.t) (w : World) :
  Forall (fun c => key_char c = true) (AgentOptions.name options) ->
  exists self w',
    Agent.__init__ unicode_lower options w = (Return self, w')
    /\ Agent.id self = AgentOptions.name options.
Proof.
  intros H.
  destruct (init_returns unicode_lower options w) as (self & w' & E & _ & Hid & _).
  exists self, w'. split; [exact E|].
  rewrite Hid. apply generate_key_from_name_fixes_keys. exact H.
Qed.

Lemma init_id_of_key_name_witness :
  Forall (fun c => key_char c = true)
    (AgentOptions.name (AgentOptions.__init__ (lit "tech-agent-2") (lit "Answers")))
  /\ exists self w',
       Agent.__init__ Sample.no_case_mapping
         (AgentOptions.__init__ (lit "tech-agent-2") (lit "Answers")) Sample.start
       = (Return self, w')
       /\ Agent.id self
          = AgentOptions.name (AgentOptions.__init__ (lit "tech-agent-2") (lit "Answers")).
Proof.
  split; [repeat constructor|].
  apply (init_id_of_key_name Sample.no_case_mapping
           (AgentOptions.__init__ (lit "tech-agent-2") (lit "Answers")) Sample.start).
  repeat constructor.
Defined.

(** ** Names made of words *)

Lemma word_char_permitted c : word_char c = true -> permitted c = true.
Proof. unfold word_char. intros H. char_arith. Qed.

Lemma word_char_not_space c : word_char c = true -> is_space c = false.
Proof. unfold word_char. intros H. char_arith. Qed.

Lemma collapse_whitespace_word_prefix a y :
  Forall (fun c => is_space c = false) a ->
  collapse_whitespace (a ++ y) = a ++ collapse_whitespace y.
Proof.
  induction 1 as [|c a Hc Ha IH]; [reflexivity|].
  simpl app. rewrite collapse_whitespace_cons, Hc, IH. reflexivity.
Qed.

Lemma collapse_whitespace_run s b :
  s <> [] ->
  Forall (fun c => is_space c = true) s ->
  Forall (fun c => is_space c = false) b ->
  collapse_whitespace (s ++ b) = ord "-" :: b.
Proof.
  intros Hne Hs Hb. induction Hs as [|c s Hc Hs IH]; [congruence|].
  simpl app. rewrite collapse_whitespace_cons, Hc.
  destruct s as [|d s'].
  - simpl app. rewrite (collapse_whitespace_no_space b Hb).
    destruct b as [|e b']; [reflexivity|].
    inversion Hb as [|? ? He _]; subst. rewrite He. reflexivity.
  - simpl app in *. inversion Hs as [|? ? Hd _]; subst. rewrite Hd.
    apply IH. discriminate.
Qed.

(** X12.  For a name made of ASCII letters, digits and hyphens only, the key
    is the name with its letters lower-cased, character by character. *)
Theorem generate_key_from_name_of_word (unicode_lower : str -> str) (name : str) :
  Forall (fun c => word_char c = true) name ->
  Agent.generate_key_from_name unicode_lower name = map ascii_lower name.
Proof.
  intros H. rewrite generate_key_from_name_ascii.
  rewrite filter_all by (eapply Forall_impl; [|exact H]; apply word_char_permitted).
  rewrite collapse_whitespace_no_space
    by (eapply Forall_impl; [|exact H]; apply word_char_not_space).
  reflexivity.
Qed.

Lemma generate_key_from_name_of_word_witness :
  Forall (fun c => word_char c = true) (lit "GPT-4o")
  /\ Agent.generate_key_from_name Sample.no_case_mapping (lit "GPT-4o")
     = map ascii_lower (lit "GPT-4o").
Proof.
  split; [repeat constructor|].
  apply (generate_key_from_name_of_word Sample.no_case_mapping (lit "GPT-4o")).
  repeat constructor.
Defined.

(** X13.  Two words of ASCII letters, digits and hyphens separated by any
    non-empty run of white space are joined by exactly one hyphen, each word
    lower-cased. *)
Theorem generate_key_from_name_joins_words (unicode_lower : str -> str)
    (a s b : str) :
  Forall (fun c => word_char c = true) a ->
  s <> [] ->
  Forall (fun c => is_space c = true) s ->
  Forall (fun c => word_char c = true) b ->
  Agent.generate_key_from_name unicode_lower (a ++ s ++ b)
  = map ascii_lower a ++ ord "-" :: map ascii_lower b.
Proof.
  intros Ha Hne Hs Hb. rewrite generate_key_from_name_ascii.
  rewrite filter_all.
  - rewrite collapse_whitespace_word_prefix
      by (eapply Forall_impl; [|exact Ha]; apply word_char_not_space).
    rewrite collapse_whitespace_run; try assumption.
    + rewrite map_app. reflexivity.
    + eapply Forall_impl; [|exact Hb]. apply word_char_not_space.
  - repeat (apply Forall_app; split).
    + eapply Forall_impl; [|exact Ha]. apply word_char_permitted.
    + eapply Forall_impl; [|exact Hs]. intros c Hc.
      unfold permitted. rewrite Hc. apply orb_true_iff. left. apply orb_true_r.
    + eapply Forall_impl; [|exact Hb]. apply word_char_permitted.
Qed.

Lemma generate_key_from_name_joins_words_witness :
  Forall (fun c => word_char c = true) (lit "Tech")
  /\ [32; 9; 160] <> []
  /\ Forall (fun c => is_space c = true) [32; 9; 160]
  /\ Forall (fun c => word_char c = true) (lit "Agent")
  /\ Agent.generate_key_from_name Sample.no_case_mapping
       (lit "Tech" ++ [32; 9; 160] ++ lit "Agent")
     = map ascii_lower (lit "Tech") ++ ord "-" :: map ascii_lower (lit "Agent").
Proof.
  split; [repeat constructor|]. split; [discriminate|].
  split; [repeat constructor|]. split; [repeat constructor|].
  apply (generate_key_from_name_joins_words Sample.no_case_mapping
           (lit "Tech") [32; 9; 160] (lit "Agent"));
    try discriminate; repeat constructor.
Defined.
